(** * Shallow embedding of the font renderer (src/main.py)

    The Python program is a single function [render_font] plus the helper
    [validate_spritesheet_name].  Python strings are modelled as Rocq
    [string]s (ASCII characters), integers as [Z], the filesystem as a
    [gmap] from paths to nodes, and standard output as a list of lines.
    The parts of Pillow the program relies on ([Image.new], [Image.paste],
    [Image.save]) are written out; the font itself ([ImageFont.truetype],
    [getbbox], [ImageDraw.text]) is an abstract collaborator. *)

From Stdlib Require Import ZArith Ascii String Bool List Lia.
From stdpp Require Import base gmap strings list.
Import ListNotations.

Open Scope string_scope.
Open Scope Z_scope.

(* ------------------------------------------------------------------ *)
(** ** Python string helpers *)

(** [str.lower] restricted to ASCII: 'A'..'Z' are mapped to 'a'..'z'. *)
Definition ascii_lower (c : ascii) : ascii :=
  let n := nat_of_ascii c in
  if (65 <=? n)%nat && (n <=? 90)%nat then ascii_of_nat (n + 32) else c.

Fixpoint lower (s : string) : string :=
  match s with
  | EmptyString => EmptyString
  | String c s' => String (ascii_lower c) (lower s')
  end.

(** [s.endswith(suf)]: some tail of [s] is [suf]. *)
Fixpoint endswith (s suf : string) : bool :=
  String.eqb s suf ||
  match s with
  | EmptyString => false
  | String _ s' => endswith s' suf
  end.

Definition dq : string := String (ascii_of_nat 34) EmptyString.
Definition esc : string := String (ascii_of_nat 27) EmptyString.

(** The f-string printed by [validate_spritesheet_name]. *)
Definition warning_message (name : string) : string :=
  esc ++ "[1;33m[Warning]: The spritesheet name " ++ dq ++ name ++ dq ++
  " does not have a .png extension. Using " ++ dq ++ name ++ ".png" ++ dq ++
  " instead." ++ esc ++ "[0m".

(** [validate_spritesheet_name] (lines 5-10): returns the name and the
    lines printed on standard output. *)
Definition validate_spritesheet_name (name : string) : string * list string :=
  if negb (endswith (lower name) ".png")
  then (name ++ ".png", [warning_message name])
  else (name, []).

(** Spec-side reading of "ends case-insensitively in .png". *)
Definition ends_in_png_ci (name : string) : Prop :=
  exists pre suf, name = pre ++ suf /\ lower suf = ".png".

(* ------------------------------------------------------------------ *)
(** ** Exceptions *)

(** The Python exceptions the run can raise. *)
Inductive exn :=
| ValueError (msg : string)
| OSError (msg : string)
| FileExistsError (path : string)
| FileNotFoundError (path : string).

Inductive result (A : Type) :=
| Ok (a : A)
| Error (e : exn).
Arguments Ok {A} a.
Arguments Error {A} e.

(* ------------------------------------------------------------------ *)
(** ** Pillow images *)

(** The two image modes the program uses. *)
Inductive mode := RGB | RGBA.

Definition mode_eqb (m1 m2 : mode) : bool :=
  match m1, m2 with
  | RGB, RGB | RGBA, RGBA => true
  | _, _ => false
  end.

(** A pixel as Pillow stores it: four 8-bit bands (the fourth band of an
    "RGB" image is 255). *)
Record pixel := Px { red : Z; green : Z; blue : Z; alpha : Z }.

Record image := Img {
  im_mode : mode;
  width : Z;
  height : Z;
  pixels : Z -> Z -> pixel
}.

(** Colours passed to [Image.new]: a 3-tuple or a 4-tuple of ints. *)
Inductive color := C3 (r g b : Z) | C4 (r g b a : Z).

Definition rgb : Type := Z * Z * Z.
Definition color_of_rgb (c : rgb) : color := let '(r, g, b) := c in C3 r g b.

(** CLIP8 of Pillow's [getink]. *)
Definition clip8 (v : Z) : Z := Z.max 0 (Z.min 255 v).

(** [getink]: tuples "iii|i", the alpha band defaulting to 255. *)
Definition getink (m : mode) (c : color) : pixel :=
  match c with
  | C3 r g b => Px (clip8 r) (clip8 g) (clip8 b) 255
  | C4 r g b a =>
      match m with
      | RGBA => Px (clip8 r) (clip8 g) (clip8 b) (clip8 a)
      | RGB => Px (clip8 r) (clip8 g) (clip8 b) 255
      end
  end.

(** [Image.new(mode, size, color)]: [_check_size] then a fill. *)
Definition Image_new (m : mode) (size : Z * Z) (c : color) : result image :=
  let '(w, h) := size in
  if (w <? 0) || (h <? 0) then Error (ValueError "Width and height must be >= 0")
  else Ok (Img m w h (fun _ _ => getink m c)).

(** [im.convert(mode)] between "RGB" and "RGBA". *)
Definition convert (im : image) (m : mode) : image :=
  Img m (width im) (height im)
      (fun x y => let p := pixels im x y in Px (red p) (green p) (blue p) 255).

(** Pillow's DIV255 and BLEND macros (libImaging/Paste.c). *)
Definition DIV255 (a : Z) : Z :=
  let tmp := a + 128 in Z.shiftr (Z.shiftr tmp 8 + tmp) 8.

Definition BLEND (mask in1 in2 : Z) : Z :=
  DIV255 (in1 * (255 - mask) + in2 * mask).

Definition blend_pixel (mask : Z) (out src : pixel) : pixel :=
  Px (BLEND mask (red out) (red src)) (BLEND mask (green out) (green src))
     (BLEND mask (blue out) (blue src)) (BLEND mask (alpha out) (alpha src)).

(** [im.paste(src, (bx, by), mask)] with an image as mask.
    Python level: [src] is converted to the mode of [im] unless [im] is
    "RGB" and [src] has an alpha band.  C level ([ImagingPaste]): the box
    is clipped to [im]; an empty region returns at once; otherwise a mask of
    mode "RGBA" blends every band with the mask's alpha band
    ([paste_mask_RGBA]) and a mask of mode "RGB" is refused with
    "bad transparency mask". *)
Definition paste (im src : image) (box : Z * Z) (mask : image) : result image :=
  let '(bx, by_) := box in
  let src := if mode_eqb (im_mode im) (im_mode src) then src
             else if mode_eqb (im_mode im) RGB && mode_eqb (im_mode src) RGBA then src
             else convert src (im_mode im) in
  let x0 := Z.max bx 0 in
  let x1 := Z.min (bx + width src) (width im) in
  let y0 := Z.max by_ 0 in
  let y1 := Z.min (by_ + height src) (height im) in
  if (x1 <=? x0) || (y1 <=? y0) then Ok im
  else
    match im_mode mask with
    | RGBA =>
        Ok (Img (im_mode im) (width im) (height im)
              (fun x y =>
                 if (x0 <=? x) && (x <? x1) && (y0 <=? y) && (y <? y1)
                 then blend_pixel (alpha (pixels mask (x - bx) (y - by_)))
                        (pixels im x y) (pixels src (x - bx) (y - by_))
                 else pixels im x y))
    | RGB => Error (ValueError "bad transparency mask")
    end.

(* ------------------------------------------------------------------ *)
(** ** Filesystem, standard output and [os] *)

Inductive node := Dir | File (im : image).

Record world := World {
  fs : gmap string node;
  stdout : list string
}.

(** [os.path.join(a, b)] (posixpath). *)
Definition path_join (a b : string) : string :=
  match b with
  | String "/" _ => b
  | _ =>
      if String.eqb a EmptyString || endswith a "/" then a ++ b
      else a ++ "/" ++ b
  end.

(** [os.makedirs(p, exist_ok=True)] on the directory itself. *)
Definition makedirs (p : string) (w : world) : result unit * world :=
  if String.eqb p EmptyString then (Error (FileNotFoundError p), w)
  else
    match fs w !! p with
    | Some Dir => (Ok tt, w)
    | Some (File _) => (Error (FileExistsError p), w)
    | None => (Ok tt, World (<[p := Dir]> (fs w)) (stdout w))
    end.

(** [image.save(path)]: the file at [path] now holds the image. *)
Definition save (p : string) (im : image) (w : world) : world :=
  World (<[p := File im]> (fs w)) (stdout w).

Definition print_lines (ls : list string) (w : world) : world :=
  World (fs w) (stdout w ++ ls).

(** A state and error monad over the world: an exception stops the run
    and keeps the effects made so far. *)
Definition M (A : Type) : Type := world -> result A * world.

Definition ret {A} (a : A) : M A := fun w => (Ok a, w).

Definition bind {A B} (m : M A) (k : A -> M B) : M B :=
  fun w => match m w with
           | (Ok a, w') => k a w'
           | (Error e, w') => (Error e, w')
           end.

Notation "x <- m ;; k" := (bind m (fun x => k))
  (at level 100, m at next level, right associativity).

Definition lift {A} (r : result A) : M A :=
  fun w => match r with Ok a => (Ok a, w) | Error e => (Error e, w) end.

Definition print (ls : list string) : M unit := fun w => (Ok tt, print_lines ls w).

Definition save_m (p : string) (im : image) : M unit := fun w => (Ok tt, save p im w).

(* ------------------------------------------------------------------ *)
(** ** The arguments of [render_font] *)

Record request := Request {
  font_path : string;
  output_folder : string;
  characters : string;
  font_size : Z;
  padding : Z * Z * Z * Z;   (* (left, top, right, bottom) *)
  bg_type : string;          (* "transparent" or "filled" *)
  export_type : string;      (* "separate" or "spritesheet" *)
  spritesheet_name : string;
  bg_color : rgb;
  text_color : rgb
}.

Definition pad_left (r : request) : Z := let '(l, _, _, _) := padding r in l.
Definition pad_top (r : request) : Z := let '(_, t, _, _) := padding r in t.
Definition pad_right (r : request) : Z := let '(_, _, rt, _) := padding r in rt.
Definition pad_bottom (r : request) : Z := let '(_, _, _, b) := padding r in b.

(** The local accumulators [images], [max_height], [total_width]. *)
Record acc := Acc {
  images : list image;
  max_height : Z;
  total_width : Z
}.

Definition acc0 : acc := Acc [] 0 0.

(* ------------------------------------------------------------------ *)
(** ** A fake font, used to run the renderer on concrete inputs *)

Module FakeFont.

Definition truetype (_ : string) (_ : Z) : result unit := Ok tt.

(** Every glyph is 8 + (code mod 3) pixels wide and 12 high. *)
Definition getbbox (_ : unit) (c : ascii) : Z * Z * Z * Z :=
  (0, 3, 8 + Z.of_nat (nat_of_ascii c mod 3), 12).

(** Inks a single pixel at the drawing origin. *)
Definition ink (_ : unit) (_ : ascii) (dx dy : Z) : bool := (dx =? 0) && (dy =? 0).

Definition draw_text (f : unit) (im : image) (pos : Z * Z) (c : ascii) (col : rgb)
  : Z -> Z -> pixel :=
  fun x y => let '(x0, y0) := pos in let '(r, g, b) := col in
    if ink f c (x - x0) (y - y0) then Px r g b 255 else pixels im x y.

(** A glyph with an empty bounding box (as for a space in some fonts). *)
Definition getbbox_empty (_ : unit) (_ : ascii) : Z * Z * Z * Z := (0, 0, 0, 0).

Definition req (chars : string) (bg export name : string) : request :=
  Request "font.ttf" "out" chars 64 (10, 10, 10, 10) bg export name
          (255, 255, 255) (0, 0, 0).

Definition w0 : world := World ∅ [].

(** A request without padding. *)
Definition req_unpadded (chars : string) : request :=
  Request "font.ttf" "out" chars 64 (0, 0, 0, 0) "transparent" "separate"
          "spritesheet.png" (255, 255, 255) (0, 0, 0).

(** The requests run below. *)
Definition req_sheet : request := req "AB" "transparent" "spritesheet" "sheet.png".
Definition req_filled : request := req "A" "filled" "spritesheet" "sheet.png".
Definition req_empty : request := req EmptyString "transparent" "spritesheet" "sheet.png".
Definition req_sep : request := req "AB" "transparent" "separate" "sheet.png".
Definition req_grid : request := req "AB" "transparent" "grid" "sheet.png".

(** A filled request whose background colour is out of the 8-bit range. *)
Definition req_clip : request :=
  Request "font.ttf" "out" "A" 64 (10, 10, 10, 10) "filled" "separate" "sheet.png"
          (300, -5, 7) (0, 0, 0).


(** A font file that cannot be opened. *)
Definition truetype_missing (_ : string) (_ : Z) : result unit :=
  Error (OSError "cannot open resource").

(** A world where the output folder "out" is a file. *)
Definition w_file : world := World {["out" := File (Img RGB 0 0 (fun _ _ => Px 0 0 0 255))]} [].

(** A 4x1 sheet and a 2x1 canvas whose left pixel is transparent and right
    pixel opaque. *)
Definition sheet_4x1 : image := Img RGBA 4 1 (fun _ _ => Px 10 20 30 40).
Definition glyph_2x1 : image :=
  Img RGBA 2 1 (fun x _ => if x =? 0 then Px 1 2 3 0 else Px 5 6 7 255).

End FakeFont.

Section Renderer.

(** The font collaborator: [ImageFont.truetype], [font.getbbox] (which
    returns (left, top, right, bottom)) and [ImageDraw.text], which
    changes the pixels of the canvas in place. *)
Variable Font : Type.
Variable truetype : string -> Z -> result Font.
Variable getbbox : Font -> ascii -> Z * Z * Z * Z.
Variable draw_text : Font -> image -> Z * Z -> ascii -> rgb -> (Z -> Z -> pixel).

(** [char_width, char_height = font.getbbox(char)[2:]] *)
Definition char_dims (font : Font) (c : ascii) : Z * Z :=
  let '(_, _, r, b) := getbbox font c in (r, b).

Definition canvas_width (req : request) (font : Font) (c : ascii) : Z :=
  fst (char_dims font c) + pad_left req + pad_right req.

Definition canvas_height (req : request) (font : Font) (c : ascii) : Z :=
  snd (char_dims font c) + pad_top req + pad_bottom req.

(** Lines 42-59: measure, allocate and draw one glyph canvas. *)
Definition glyph_canvas (req : request) (font : Font) (c : ascii) : result image :=
  let '(char_width, char_height) := char_dims font c in
  let img_width := char_width + pad_left req + pad_right req in
  let img_height := char_height + pad_top req + pad_bottom req in
  let made :=
    if String.eqb (bg_type req) "transparent"
    then Image_new RGBA (img_width, img_height) (C4 0 0 0 0)
    else Image_new RGB (img_width, img_height) (color_of_rgb (bg_color req)) in
  match made with
  | Error e => Error e
  | Ok image =>
      let text_x := pad_left req in
      let text_y := pad_top req in
      Ok (Img (im_mode image) (width image) (height image)
              (draw_text font image (text_x, text_y) c (text_color req)))
  end.

Definition char_file (c : ascii) : string := String c ".png".

(** Lines 40-66: the character loop. *)
Fixpoint glyph_loop (req : request) (font : Font) (chars : string) (a : acc) (w : world)
  : result acc * world :=
  match chars with
  | EmptyString => (Ok a, w)
  | String c rest =>
      match glyph_canvas req font c with
      | Error e => (Error e, w)
      | Ok image =>
          if String.eqb (export_type req) "separate"
          then glyph_loop req font rest a
                 (save (path_join (output_folder req) (char_file c)) image w)
          else glyph_loop req font rest
                 (Acc (images a ++ [image])%list
                      (Z.max (max_height a) (height image))
                      (total_width a + width image)) w
      end
  end.

(** Lines 75-78: the paste loop. *)
Fixpoint paste_loop (sheet : image) (x_offset : Z) (imgs : list image) : result image :=
  match imgs with
  | [] => Ok sheet
  | img :: rest =>
      match paste sheet img (x_offset, 0) img with
      | Error e => Error e
      | Ok sheet' => paste_loop sheet' (x_offset + width img) rest
      end
  end.

(** Lines 70-74: the sheet canvas. *)
Definition sheet_fill (bg_t : string) (bg_c : rgb) : color :=
  if String.eqb bg_t "transparent" then C4 0 0 0 0 else color_of_rgb bg_c.

Definition new_sheet (req : request) (a : acc) : result image :=
  Image_new RGBA (total_width a, max_height a) (sheet_fill (bg_type req) (bg_color req)).

Definition compose_sheet (req : request) (a : acc) : result image :=
  match new_sheet req a with
  | Error e => Error e
  | Ok sheet => paste_loop sheet 0 (images a)
  end.

(** Python truthiness of a list. *)
Definition is_nonempty {A} (l : list A) : bool :=
  match l with [] => false | _ => true end.

(** Lines 69-80: compose and save the sheet. *)
Definition export_sheet (req : request) (name : string) (a : acc) : M unit :=
  if String.eqb (export_type req) "spritesheet" && is_nonempty (images a)
  then sheet <- lift (compose_sheet req a) ;;
       save_m (path_join (output_folder req) name) sheet
  else ret tt.

(** [render_font] (lines 12-82). *)
Definition render_font (req : request) : M unit :=
  let '(name, printed) :=
    if String.eqb (export_type req) "spritesheet"
    then validate_spritesheet_name (spritesheet_name req)
    else (spritesheet_name req, []) in
  _ <- print printed ;;
  font <- lift (truetype (font_path req) (font_size req)) ;;
  _ <- makedirs (output_folder req) ;;
  a <- glyph_loop req font (characters req) acc0 ;;
  _ <- export_sheet req name a ;;
  print ["Rendering complete!"].

(* ------------------------------------------------------------------ *)
(** ** Helpers for stating the properties *)

(** The glyph canvases of a character sequence, in order. *)
Fixpoint canvases (req : request) (font : Font) (chars : string) : result (list image) :=
  match chars with
  | EmptyString => Ok []
  | String c rest =>
      match glyph_canvas req font c with
      | Error e => Error e
      | Ok img =>
          match canvases req font rest with
          | Error e => Error e
          | Ok imgs => Ok (img :: imgs)
          end
      end
  end.

Fixpoint sum_Z (l : list Z) : Z :=
  match l with [] => 0 | x :: l => x + sum_Z l end.

(** Spec side of the sheet layout: the i-th canvas is pasted at
    x = the total width of the canvases before it, y = 0. *)
Definition placements (imgs : list image) : list (image * (Z * Z)) :=
  combine imgs (map (fun i => (sum_Z (map width (firstn i imgs)), 0)) (seq 0 (length imgs))).

(** Paste each canvas at its place, with its own alpha as mask, in order. *)
Fixpoint paste_each (sheet : image) (ps : list (image * (Z * Z))) : result image :=
  match ps with
  | [] => Ok sheet
  | (img, pos) :: rest =>
      match paste sheet img pos img with
      | Error e => Error e
      | Ok sheet' => paste_each sheet' rest
      end
  end.

Definition shift_place (dx : Z) (p : image * (Z * Z)) : image * (Z * Z) :=
  (fst p, (dx + fst (snd p), snd (snd p))).

(** A colour as the spec has it: three integers in 0..255. *)
Definition valid_rgb (c : rgb) : Prop :=
  let '(r, g, b) := c in 0 <= r <= 255 /\ 0 <= g <= 255 /\ 0 <= b <= 255.

(** Where [ImageDraw.text] puts ink for a glyph, relative to the drawing
    origin (part of the font collaborator). *)
Variable glyph_ink : Font -> ascii -> Z -> Z -> bool.

(** A sheet pixel lies outside every drawn glyph: glyph i is drawn at
    (x-offset of its canvas + left padding, top padding). *)
Definition outside_ink (req : request) (font : Font) (chars : string) (x y : Z) : Prop :=
  forall i c, nth_error (list_ascii_of_string chars) i = Some c ->
    glyph_ink font c
      (x - (sum_Z (map (canvas_width req font) (firstn i (list_ascii_of_string chars)))
            + pad_left req))
      (y - pad_top req) = false.

(** The same request with another background colour. *)
Definition with_bg_color (req : request) (c : rgb) : request :=
  Request (font_path req) (output_folder req) (characters req) (font_size req)
          (padding req) (bg_type req) (export_type req) (spritesheet_name req)
          c (text_color req).



(** The lines [render_font] prints before loading the font: the
    validator's warning, in sheet mode only (lines 27-28). *)
Definition name_warnings (req : request) : list string :=
  if String.eqb (export_type req) "spritesheet"
  then snd (validate_spritesheet_name (spritesheet_name req)) else [].

(** The sheet name [render_font] works with after line 28. *)
Definition sheet_name (req : request) : string :=
  if String.eqb (export_type req) "spritesheet"
  then fst (validate_spritesheet_name (spritesheet_name req)) else spritesheet_name req.

(** Where the sheet is saved (line 80). *)
Definition sheet_path (req : request) : string :=
  path_join (output_folder req) (fst (validate_spritesheet_name (spritesheet_name req))).

(** Where the canvas of a character is saved in separate mode (line 62). *)
Definition char_path (req : request) (c : ascii) : string :=
  path_join (output_folder req) (char_file c).

(** Every band of a pixel is an 8-bit value. *)
Definition pixel_8bit (p : pixel) : Prop :=
  0 <= red p <= 255 /\ 0 <= green p <= 255 /\ 0 <= blue p <= 255 /\ 0 <= alpha p <= 255.

(* ================================================================== *)
(** * Properties *)

(* ------------------------------------------------------------------ *)
(** ** The name validator *)

Lemma lower_app (a b : string) : lower (a ++ b) = lower a ++ lower b.
Proof. induction a as [|c a IH]; simpl; [reflexivity | now rewrite IH]. Qed.

Lemma endswith_spec (s suf : string) :
  endswith s suf = true <-> exists pre, s = pre ++ suf.
Proof.
  induction s as [|c s IH]; cbn [endswith].
  - rewrite orb_false_r, String.eqb_eq. split.
    + intros <-. now exists EmptyString.
    + intros [[|c' pre] H]; simpl in H; [exact H | discriminate].
  - rewrite orb_true_iff, String.eqb_eq, IH. split.
    + intros [<- | [pre ->]].
      * now exists EmptyString.
      * now exists (String c pre).
    + intros [[|c' pre] H]; simpl in H.
      * now left.
      * right. exists pre. now injection H.
Qed.

Lemma lower_split (s a b : string) :
  lower s = a ++ b -> exists s1 s2, s = s1 ++ s2 /\ lower s1 = a /\ lower s2 = b.
Proof.
  revert a. induction s as [|c s IH]; intros a H.
  - destruct a as [|c' a]; simpl in H; [|discriminate].
    exists EmptyString, EmptyString. auto.
  - destruct a as [|c' a]; simpl in H.
    + exists EmptyString, (String c s). auto.
    + injection H as Hc H. destruct (IH a H) as (s1 & s2 & -> & H1 & H2).
      exists (String c s1), s2. simpl. rewrite Hc, H1. auto.
Qed.

Lemma endswith_lower_png (name : string) :
  endswith (lower name) ".png" = true <-> ends_in_png_ci name.
Proof.
  rewrite endswith_spec. split.
  - intros [pre H]. destruct (lower_split name pre ".png" H) as (s1 & s2 & -> & _ & H2).
    now exists s1, s2.
  - intros (pre & suf & -> & H). exists (lower pre). now rewrite lower_app, H.
Qed.

(** C2: a name that does not end in ".png" (in any letter case) gets
    ".png" appended once, together with one warning line; a name that
    already ends in it is returned unchanged with no warning. *)
Theorem validate_spritesheet_name_spec (name : string) :
  (ends_in_png_ci name /\ validate_spritesheet_name name = (name, []))
  \/ (~ ends_in_png_ci name
      /\ validate_spritesheet_name name = (name ++ ".png", [warning_message name])
      /\ ends_in_png_ci (name ++ ".png")).
Proof.
  unfold validate_spritesheet_name.
  destruct (endswith (lower name) ".png") eqn:E; simpl.
  - left. split; [now apply endswith_lower_png | reflexivity].
  - right. split; [|split; [reflexivity|]].
    + intros H. apply endswith_lower_png in H. congruence.
    + now exists name, ".png".
Qed.

(* ------------------------------------------------------------------ *)
(** ** Glyph canvases and the character loop *)

Lemma glyph_canvas_dims (req : request) (font : Font) (c : ascii) (img : image) :
  glyph_canvas req font c = Ok img ->
  width img = canvas_width req font c /\ height img = canvas_height req font c /\
  0 <= width img /\ 0 <= height img /\
  im_mode img = (if String.eqb (bg_type req) "transparent" then RGBA else RGB).
Proof.
  unfold glyph_canvas, canvas_width, canvas_height, char_dims.
  destruct (getbbox font c) as [[[l t] r] b]; simpl.
  destruct (String.eqb (bg_type req) "transparent"); unfold Image_new;
    match goal with |- context [if ?cond then _ else _] => destruct cond eqn:E end;
    intros H; try discriminate; injection H as <-; simpl;
    apply orb_false_iff in E as [E1 E2]; apply Z.ltb_ge in E1, E2;
    repeat split; (reflexivity || lia).
Qed.

Lemma glyph_canvas_error (req : request) (font : Font) (c : ascii) (e : exn) :
  glyph_canvas req font c = Error e ->
  e = ValueError "Width and height must be >= 0" /\
  (canvas_width req font c < 0 \/ canvas_height req font c < 0).
Proof.
  unfold glyph_canvas, canvas_width, canvas_height, char_dims.
  destruct (getbbox font c) as [[[l t] r] b]; simpl.
  destruct (String.eqb (bg_type req) "transparent"); unfold Image_new;
    match goal with |- context [if ?cond then _ else _] => destruct cond eqn:E end;
    intros H; try discriminate; injection H as <-;
    apply orb_true_iff in E as [E | E]; apply Z.ltb_lt in E; auto.
Qed.

(** Outside "separate" mode the loop writes nothing and retains the
    canvases in order, with the running maximum height and total width. *)
Lemma glyph_loop_retain (req : request) (font : Font) (chars : string) (a a' : acc)
    (w w' : world) :
  String.eqb (export_type req) "separate" = false ->
  glyph_loop req font chars a w = (Ok a', w') ->
  w' = w /\
  exists imgs, canvases req font chars = Ok imgs /\
    images a' = (images a ++ imgs)%list /\
    max_height a' = fold_left Z.max (map height imgs) (max_height a) /\
    total_width a' = total_width a + sum_Z (map width imgs).
Proof.
  intros Hsep. revert a. induction chars as [|c rest IH]; intros a H; simpl in H |- *.
  - injection H as <- <-. split; [reflexivity|].
    exists []. rewrite app_nil_r. simpl. repeat split; lia.
  - destruct (glyph_canvas req font c) as [img|e]; [|discriminate].
    rewrite Hsep in H. apply IH in H as [-> (imgs & Hc & Hi & Hm & Ht)].
    split; [reflexivity|]. rewrite Hc. exists (img :: imgs).
    simpl in Hi, Hm, Ht |- *. rewrite <- app_assoc in Hi. repeat split; auto; lia.
Qed.

Lemma canvases_dims (req : request) (font : Font) (chars : string) (imgs : list image) :
  canvases req font chars = Ok imgs ->
  map width imgs = map (canvas_width req font) (list_ascii_of_string chars) /\
  map height imgs = map (canvas_height req font) (list_ascii_of_string chars) /\
  Forall (fun img => 0 <= width img /\ 0 <= height img) imgs.
Proof.
  revert imgs. induction chars as [|c rest IH]; intros imgs H; simpl in H.
  - injection H as <-. simpl. auto.
  - destruct (glyph_canvas req font c) as [img|e] eqn:Eg; [|discriminate].
    destruct (canvases req font rest) as [imgs'|e]; [|discriminate].
    injection H as <-. destruct (IH imgs' eq_refl) as (Hw & Hh & Hf).
    destruct (glyph_canvas_dims req font c img Eg) as (Hw1 & Hh1 & P1 & P2 & _).
    simpl. rewrite Hw, Hh, Hw1, Hh1. auto.
Qed.

(** Running maxima. *)
Lemma fold_max_ge (l : list Z) (m : Z) :
  m <= fold_left Z.max l m /\ Forall (fun x => x <= fold_left Z.max l m) l /\
  (fold_left Z.max l m = m \/ In (fold_left Z.max l m) l).
Proof.
  revert m. induction l as [|x l IH]; intros m; simpl.
  - split; [lia | split; [constructor | now left]].
  - destruct (IH (Z.max m x)) as (H1 & H2 & H3). split; [lia|]. split.
    + constructor; [lia | exact H2].
    + destruct H3 as [H3 | H3]; [|auto].
      rewrite H3. destruct (Z.max_spec m x) as [[_ ->] | [_ ->]]; auto.
Qed.

(* ------------------------------------------------------------------ *)
(** ** The sheet canvas *)

Lemma paste_dims (im src mask : image) (box : Z * Z) (r : image) :
  paste im src box mask = Ok r ->
  width r = width im /\ height r = height im /\ im_mode r = im_mode im.
Proof.
  destruct box as [bx by_]. unfold paste. intros H.
  repeat match type of H with
         | context [if ?cond then _ else _] => destruct cond
         | context [match ?m with RGB => _ | RGBA => _ end] => destruct m
         end; try discriminate; injection H as <-; auto.
Qed.

Lemma paste_loop_dims (sheet : image) (x : Z) (imgs : list image) (r : image) :
  paste_loop sheet x imgs = Ok r ->
  width r = width sheet /\ height r = height sheet /\ im_mode r = im_mode sheet.
Proof.
  revert sheet x. induction imgs as [|img rest IH]; intros sheet x H; cbn [paste_loop] in H.
  - injection H as <-. auto.
  - destruct (paste sheet img (x, 0) img) as [s1|e] eqn:E; [|discriminate].
    apply paste_dims in E as (E1 & E2 & E3). apply IH in H as (H1 & H2 & H3).
    repeat split; congruence.
Qed.

Lemma sum_Z_nonneg (l : list Z) : Forall (fun x => 0 <= x) l -> 0 <= sum_Z l.
Proof. induction 1; simpl; lia. Qed.

(** What the loop leaves for the sheet in sheet mode. *)
Lemma sheet_accumulators (req : request) (font : Font) (chars : string) (a : acc)
    (w w' : world) :
  export_type req = "spritesheet" ->
  glyph_loop req font chars acc0 w = (Ok a, w') ->
  w' = w /\ canvases req font chars = Ok (images a) /\
  total_width a = sum_Z (map (canvas_width req font) (list_ascii_of_string chars)) /\
  max_height a = fold_left Z.max (map (canvas_height req font) (list_ascii_of_string chars)) 0 /\
  Forall (fun c' => 0 <= canvas_width req font c' /\ 0 <= canvas_height req font c')
    (list_ascii_of_string chars).
Proof.
  intros Hsheet H. apply glyph_loop_retain in H as [-> (imgs & Hc & Hi & Hm & Ht)];
    [|rewrite Hsheet; reflexivity].
  simpl in Hi, Hm, Ht. subst. split; [reflexivity|]. rewrite Hc. split; [reflexivity|].
  destruct (canvases_dims req font chars (images a) Hc) as (Hw & Hh & Hf).
  rewrite Ht, Hm, Hw, Hh. split; [reflexivity | split; [reflexivity|]]. clear -Hw Hh Hf.
  apply List.Forall_forall. intros c' Hin.
  assert (Inw : In (canvas_width req font c') (map width (images a)))
    by (rewrite Hw; now apply in_map).
  assert (Inh : In (canvas_height req font c') (map height (images a)))
    by (rewrite Hh; now apply in_map).
  apply in_map_iff in Inw as (i1 & E1 & I1). apply in_map_iff in Inh as (i2 & E2 & I2).
  rewrite List.Forall_forall in Hf. apply Hf in I1, I2. lia.
Qed.

(** C1: in sheet mode, for a non-empty character sequence, the sheet canvas
    is as wide as all glyph canvases together and as high as the highest
    one; the pastes keep these dimensions. *)
Theorem sheet_dimensions (req : request) (font : Font) (c : ascii) (cs : string)
    (a : acc) (w w' : world) :
  export_type req = "spritesheet" ->
  glyph_loop req font (String c cs) acc0 w = (Ok a, w') ->
  exists sheet,
    new_sheet req a = Ok sheet /\
    width sheet = sum_Z (map (canvas_width req font) (list_ascii_of_string (String c cs))) /\
    (forall c', In c' (list_ascii_of_string (String c cs)) ->
                canvas_height req font c' <= height sheet) /\
    (exists c', In c' (list_ascii_of_string (String c cs)) /\
                canvas_height req font c' = height sheet) /\
    (forall composed, compose_sheet req a = Ok composed ->
       width composed = width sheet /\ height composed = height sheet).
Proof.
  clear truetype glyph_ink.
  intros Hsheet H.
  destruct (sheet_accumulators req font _ a w w' Hsheet H) as (_ & Hc & Ht & Hm & Hf).
  destruct (fold_max_ge (map (canvas_height req font) (list_ascii_of_string (String c cs))) 0) as (M1 & M2 & M3).
  rewrite <- Hm in M1, M2, M3.
  assert (Tw : 0 <= total_width a).
  { rewrite Ht. apply sum_Z_nonneg, List.Forall_map.
    eapply List.Forall_impl; [|exact Hf]. simpl. tauto. }
  unfold compose_sheet, new_sheet, Image_new.
  destruct ((total_width a <? 0) || (max_height a <? 0)) eqn:E.
  { apply orb_true_iff in E as [E|E]; apply Z.ltb_lt in E; lia. }
  eexists. split; [reflexivity|]. simpl. split; [exact Ht|].
  split; [|split].
  - intros c' Hin. rewrite List.Forall_forall in M2. apply M2. now apply in_map.
  - destruct M3 as [M3 | M3].
    + exists c. split; [now left|]. rewrite List.Forall_forall in Hf, M2.
      assert (Hc0 : In c (list_ascii_of_string (String c cs))) by now left.
      specialize (Hf c Hc0). specialize (M2 (canvas_height req font c) (in_map _ _ _ Hc0)).
      lia.
    + apply in_map_iff in M3 as (c' & Ec & Hin). now exists c'.
  - intros composed Hp. apply paste_loop_dims in Hp as (P1 & P2 & _). simpl in P1, P2.
    auto.
Qed.

(* ------------------------------------------------------------------ *)
(** ** Layout of the sheet *)

Lemma combine_map_r {A B C} (l1 : list A) (l2 : list B) (f : B -> C) :
  combine l1 (map f l2) = map (fun p => (fst p, f (snd p))) (combine l1 l2).
Proof.
  revert l2. induction l1 as [|x l1 IH]; intros [|y l2]; simpl; auto. now rewrite IH.
Qed.

Lemma placements_cons (img : image) (rest : list image) :
  placements (img :: rest) = (img, (0, 0)) :: map (shift_place (width img)) (placements rest).
Proof.
  unfold placements. cbn [length seq]. rewrite <- seq_shift. cbn [map combine firstn].
  f_equal. rewrite map_map, !combine_map_r, map_map. apply map_ext. intros [im i].
  reflexivity.
Qed.

Lemma paste_loop_placements (sheet : image) (x : Z) (imgs : list image) :
  paste_loop sheet x imgs = paste_each sheet (map (shift_place x) (placements imgs)).
Proof.
  revert sheet x. induction imgs as [|img rest IH]; intros sheet x.
  - reflexivity.
  - rewrite placements_cons. cbn [map paste_loop]. unfold shift_place at 1. cbn [fst snd].
    rewrite Z.add_0_r. cbn [paste_each].
    destruct (paste sheet img (x, 0) img) as [s1|e]; [|reflexivity].
    rewrite IH, map_map. f_equal. apply map_ext. intros [im [px py]].
    unfold shift_place. simpl. now rewrite Z.add_assoc.
Qed.

(** C4: in sheet mode the retained canvases are those of the characters in
    input order, and the sheet is composed by pasting the i-th of them at
    x = the total width of the canvases before it and y = 0, in order. *)
Theorem sheet_layout_order (req : request) (font : Font) (chars : string) (a : acc)
    (w w' : world) :
  export_type req = "spritesheet" ->
  glyph_loop req font chars acc0 w = (Ok a, w') ->
  canvases req font chars = Ok (images a) /\
  compose_sheet req a =
    (match new_sheet req a with
     | Error e => Error e
     | Ok sheet => paste_each sheet (placements (images a))
     end).
Proof.
  intros Hsheet H.
  destruct (sheet_accumulators req font chars a w w' Hsheet H) as (_ & Hc & _).
  split; [exact Hc|]. unfold compose_sheet. destruct (new_sheet req a) as [sheet|e];
    [|reflexivity].
  rewrite paste_loop_placements. f_equal. rewrite <- (map_id (placements (images a))) at 2.
  apply map_ext. intros [im [px py]]. reflexivity.
Qed.

(* ------------------------------------------------------------------ *)
(** ** Background of the sheet *)

(** [ImageDraw.text] leaves every pixel outside the glyph's ink alone. *)
Hypothesis draw_text_outside_ink :
  forall font img x0 y0 c col x y,
    glyph_ink font c (x - x0) (y - y0) = false ->
    draw_text font img (x0, y0) c col x y = pixels img x y.

Lemma glyph_canvas_clear (req : request) (font : Font) (c : ascii) (img : image) (u v : Z) :
  String.eqb (bg_type req) "transparent" = true ->
  glyph_canvas req font c = Ok img ->
  glyph_ink font c (u - pad_left req) (v - pad_top req) = false ->
  pixels img u v = Px 0 0 0 0.
Proof.
  intros Ht. unfold glyph_canvas. rewrite Ht. unfold char_dims.
  destruct (getbbox font c) as [[[l t] r] b]. unfold Image_new.
  match goal with |- context [if ?cond then _ else _] => destruct cond end;
    intros H; [discriminate|]. injection H as <-. intros Hi. simpl.
  rewrite draw_text_outside_ink by exact Hi. reflexivity.
Qed.

Lemma paste_pixel (im src mask r : image) (bx by_ x y : Z) :
  mode_eqb (im_mode im) (im_mode src) = true ->
  paste im src (bx, by_) mask = Ok r ->
  pixels r x y = pixels im x y \/
  pixels r x y = blend_pixel (alpha (pixels mask (x - bx) (y - by_)))
                   (pixels im x y) (pixels src (x - bx) (y - by_)).
Proof.
  intros Hm. unfold paste. rewrite Hm.
  match goal with |- context [if ?cond then _ else _] => destruct cond end.
  - intros H. injection H as <-. now left.
  - destruct (im_mode mask); intros H; [discriminate|]. injection H as <-. simpl.
    match goal with |- context [if ?cond then _ else _] => destruct cond end; auto.
Qed.

Lemma paste_loop_clear (req : request) (font : Font) (chars : string) (imgs : list image)
    (sheet composed : image) (x0 x y : Z) :
  String.eqb (bg_type req) "transparent" = true ->
  canvases req font chars = Ok imgs ->
  im_mode sheet = RGBA ->
  paste_loop sheet x0 imgs = Ok composed ->
  pixels sheet x y = Px 0 0 0 0 ->
  (forall i c, nth_error (list_ascii_of_string chars) i = Some c ->
     glyph_ink font c
       (x - (x0 + sum_Z (map (canvas_width req font) (firstn i (list_ascii_of_string chars)))
             + pad_left req))
       (y - pad_top req) = false) ->
  pixels composed x y = Px 0 0 0 0.
Proof.
  intros Ht. revert imgs sheet x0.
  induction chars as [|c rest IH]; intros imgs sheet x0 Hc Hmode Hp H0 Hink;
    cbn [canvases] in Hc.
  - injection Hc as <-. cbn [paste_loop] in Hp. now injection Hp as <-.
  - destruct (glyph_canvas req font c) as [img|e] eqn:Eg; [|discriminate].
    destruct (canvases req font rest) as [imgs'|e] eqn:Er; [|discriminate].
    injection Hc as <-. cbn [paste_loop] in Hp.
    destruct (paste sheet img (x0, 0) img) as [s1|e] eqn:Ep; [|discriminate].
    destruct (glyph_canvas_dims req font c img Eg) as (Hw & _ & _ & _ & Hmi).
    rewrite Ht in Hmi.
    assert (Hmodes : mode_eqb (im_mode sheet) (im_mode img) = true)
      by (now rewrite Hmode, Hmi).
    assert (Hclear : pixels img (x - x0) (y - 0) = Px 0 0 0 0).
    { apply (glyph_canvas_clear req font c); [exact Ht | exact Eg |].
      specialize (Hink 0%nat c eq_refl). cbn [firstn map sum_Z] in Hink.
      replace (x - x0 - pad_left req) with (x - (x0 + 0 + pad_left req)) by lia.
      replace (y - 0 - pad_top req) with (y - pad_top req) by lia. exact Hink. }
    assert (H1 : pixels s1 x y = Px 0 0 0 0).
    { destruct (paste_pixel sheet img img s1 x0 0 x y Hmodes Ep) as [E | E];
        rewrite E, ?Hclear, H0; reflexivity. }
    destruct (paste_dims sheet img img (x0, 0) s1 Ep) as (_ & _ & Hm1).
    apply (IH imgs' s1 (x0 + width img)); auto; [congruence|].
    intros i c' Hi. specialize (Hink (S i) c' Hi).
    cbn [list_ascii_of_string firstn map sum_Z] in Hink. rewrite Hw.
    replace (x - (x0 + canvas_width req font c +
                  sum_Z (map (canvas_width req font) (firstn i (list_ascii_of_string rest)))
                  + pad_left req))
      with (x - (x0 + (canvas_width req font c +
                 sum_Z (map (canvas_width req font) (firstn i (list_ascii_of_string rest))))
                 + pad_left req)) by lia.
    exact Hink.
Qed.

(** C6: the sheet canvas is allocated with an alpha band ("RGBA") and
    filled like the glyph canvases: fully transparent in "transparent"
    mode, the background colour (opaque) otherwise.  In "transparent" mode
    every pixel of the composed sheet outside the drawn glyphs stays fully
    transparent. *)
Theorem sheet_background (req : request) (font : Font) (chars : string) (a : acc)
    (w w' : world) :
  export_type req = "spritesheet" ->
  valid_rgb (bg_color req) ->
  glyph_loop req font chars acc0 w = (Ok a, w') ->
  exists sheet,
    new_sheet req a = Ok sheet /\ im_mode sheet = RGBA /\
    (forall x y, pixels sheet x y =
       if String.eqb (bg_type req) "transparent" then Px 0 0 0 0
       else let '(r, g, b) := bg_color req in Px r g b 255) /\
    (String.eqb (bg_type req) "transparent" = true ->
     forall composed, compose_sheet req a = Ok composed ->
     forall x y, outside_ink req font chars x y -> pixels composed x y = Px 0 0 0 0).
Proof.
  clear truetype.
  intros Hsheet Hcol H.
  destruct (sheet_accumulators req font chars a w w' Hsheet H) as (_ & Hc & Ht & Hm & Hf).
  destruct (fold_max_ge (map (canvas_height req font) (list_ascii_of_string chars)) 0)
    as (M1 & _ & _).
  rewrite <- Hm in M1.
  assert (Tw : 0 <= total_width a).
  { rewrite Ht. apply sum_Z_nonneg, List.Forall_map.
    eapply List.Forall_impl; [|exact Hf]. simpl. tauto. }
  unfold compose_sheet, new_sheet, Image_new.
  destruct ((total_width a <? 0) || (max_height a <? 0)) eqn:E.
  { apply orb_true_iff in E as [E|E]; apply Z.ltb_lt in E; lia. }
  eexists. split; [reflexivity|]. split; [reflexivity|]. split.
  - intros x y. simpl. unfold sheet_fill.
    destruct (String.eqb (bg_type req) "transparent"); [reflexivity|].
    destruct (bg_color req) as [[r g] b]. simpl in Hcol |- *. unfold clip8.
    f_equal; lia.
  - intros Htr composed Hp x y Hout.
    apply (paste_loop_clear req font chars (images a) _ composed 0 x y Htr Hc) in Hp;
      [exact Hp | reflexivity | |].
    + simpl. unfold sheet_fill. now rewrite Htr.
    + intros i c Hi. apply Hout in Hi. now rewrite Z.add_0_l.
Qed.

(* ------------------------------------------------------------------ *)
(** ** The empty character sequence *)

Lemma makedirs_print (p : string) (ls : list string) (w : world) :
  makedirs p (print_lines ls w) = (fst (makedirs p w), print_lines ls (snd (makedirs p w))).
Proof.
  unfold makedirs, print_lines. simpl.
  destruct (String.eqb p EmptyString); [reflexivity|].
  destruct (fs w !! p) as [[|im]|]; reflexivity.
Qed.

(** C7: in sheet mode an empty character sequence writes no sheet: once the
    font is loaded and the output folder exists, the run succeeds and the
    filesystem is what [os.makedirs] left. *)
Theorem empty_sheet_writes_nothing (req : request) (font : Font) (w : world) :
  characters req = EmptyString ->
  export_type req = "spritesheet" ->
  truetype (font_path req) (font_size req) = Ok font ->
  fst (makedirs (output_folder req) w) = Ok tt ->
  fst (render_font req w) = Ok tt /\
  fs (snd (render_font req w)) = fs (snd (makedirs (output_folder req) w)).
Proof.
  intros Hc He Ht Hm. unfold render_font. rewrite He. cbn [String.eqb Ascii.eqb Bool.eqb].
  destruct (validate_spritesheet_name (spritesheet_name req)) as [name printed].
  unfold bind, print, lift. rewrite Ht, makedirs_print.
  destruct (makedirs (output_folder req) w) as [r w1]. simpl in Hm |- *. subst r.
  rewrite Hc. cbn [glyph_loop]. unfold export_sheet. rewrite He. simpl. auto.
Qed.

(* ------------------------------------------------------------------ *)
(** ** The background colour on the transparent path *)

Lemma bind_ext {A B} (m1 m2 : M A) (k1 k2 : A -> M B) :
  (forall w, m1 w = m2 w) -> (forall a w, k1 a w = k2 a w) ->
  forall w, bind m1 k1 w = bind m2 k2 w.
Proof.
  intros H1 H2 w. unfold bind. rewrite H1. destruct (m2 w) as [[a|e] w']; auto.
Qed.

Section Transparent.
Variable req : request.
Hypothesis transparent : bg_type req = "transparent".

Lemma glyph_canvas_bg (c : rgb) (font : Font) (ch : ascii) :
  glyph_canvas (with_bg_color req c) font ch = glyph_canvas req font ch.
Proof.
  unfold glyph_canvas. change (bg_type (with_bg_color req c)) with (bg_type req).
  rewrite transparent. reflexivity.
Qed.

Lemma glyph_loop_bg (c : rgb) (font : Font) (chars : string) :
  forall a w, glyph_loop (with_bg_color req c) font chars a w = glyph_loop req font chars a w.
Proof.
  induction chars as [|ch rest IH]; intros a w; cbn [glyph_loop]; [reflexivity|].
  rewrite glyph_canvas_bg. destruct (glyph_canvas req font ch) as [img|e]; [|reflexivity].
  change (export_type (with_bg_color req c)) with (export_type req).
  destruct (String.eqb (export_type req) "separate"); apply IH.
Qed.

Lemma export_sheet_bg (c : rgb) (name : string) (a : acc) (w : world) :
  export_sheet (with_bg_color req c) name a w = export_sheet req name a w.
Proof.
  unfold export_sheet, compose_sheet, new_sheet, sheet_fill.
  change (export_type (with_bg_color req c)) with (export_type req).
  change (bg_type (with_bg_color req c)) with (bg_type req).
  rewrite transparent. reflexivity.
Qed.

Lemma render_font_bg (c : rgb) (w : world) :
  render_font (with_bg_color req c) w = render_font req w.
Proof.
  unfold render_font.
  change (export_type (with_bg_color req c)) with (export_type req).
  change (spritesheet_name (with_bg_color req c)) with (spritesheet_name req).
  destruct (if String.eqb (export_type req) "spritesheet"
            then validate_spritesheet_name (spritesheet_name req)
            else (spritesheet_name req, [])) as [name printed].
  revert w. apply bind_ext; [reflexivity|]. intros [] w1.
  revert w1. apply bind_ext; [reflexivity|]. intros font w2.
  revert w2. apply bind_ext; [reflexivity|]. intros [] w3.
  revert w3. apply bind_ext; [apply glyph_loop_bg|]. intros a w4.
  revert w4. apply bind_ext; [apply export_sheet_bg|]. reflexivity.
Qed.

End Transparent.

(** C10: with a transparent background the run does not depend on the
    background colour: two runs that differ only in [bg_color] have the
    same outcome, files and output. *)
Theorem transparent_ignores_bg_color (req : request) (c1 c2 : rgb) (w : world) :
  bg_type req = "transparent" ->
  render_font (with_bg_color req c1) w = render_font (with_bg_color req c2) w.
Proof.
  intros Ht. rewrite !render_font_bg by exact Ht. reflexivity.
Qed.

(* ------------------------------------------------------------------ *)
(** ** Determinism *)












(* ------------------------------------------------------------------ *)
(** ** Size of a glyph canvas *)

(** C3 (as the code does it): the canvas for a character is requested
    with width = bbox right + left + right padding and height = bbox bottom
    + top + bottom padding; nothing makes these positive: when both are
    non-negative the canvas has exactly that size (possibly zero), and when
    one is negative [Image.new] raises ValueError. *)
Theorem glyph_canvas_size (req : request) (font : Font) (c : ascii) :
  match glyph_canvas req font c with
  | Ok img =>
      width img = canvas_width req font c /\ height img = canvas_height req font c /\
      0 <= canvas_width req font c /\ 0 <= canvas_height req font c
  | Error e =>
      e = ValueError "Width and height must be >= 0" /\
      (canvas_width req font c < 0 \/ canvas_height req font c < 0)
  end.
Proof.
  destruct (glyph_canvas req font c) as [img|e] eqn:E.
  - destruct (glyph_canvas_dims req font c img E) as (H1 & H2 & H3 & H4 & _).
    rewrite <- H1, <- H2. auto.
  - now apply glyph_canvas_error.
Qed.

(* ------------------------------------------------------------------ *)
(** ** The whole run, step by step *)

Lemma validate_png_app (n : string) : endswith (lower (n ++ ".png")) ".png" = true.
Proof. rewrite lower_app. apply endswith_spec. exists (lower n). reflexivity. Qed.

(** The name validator is idempotent: a name it has already corrected is
    kept as it is, and no second warning is printed. *)
Theorem validate_spritesheet_name_idempotent (name : string) :
  validate_spritesheet_name (fst (validate_spritesheet_name name)) =
  (fst (validate_spritesheet_name name), []).
Proof.
  unfold validate_spritesheet_name at 2 3.
  destruct (endswith (lower name) ".png") eqn:E; cbn [negb fst].
  - unfold validate_spritesheet_name. now rewrite E.
  - unfold validate_spritesheet_name. now rewrite validate_png_app.
Qed.

Lemma render_font_unfold (req : request) (w : world) :
  render_font req w =
  match truetype (font_path req) (font_size req) with
  | Error e => (Error e, print_lines (name_warnings req) w)
  | Ok font =>
      match makedirs (output_folder req) (print_lines (name_warnings req) w) with
      | (Error e, w1) => (Error e, w1)
      | (Ok _, w1) =>
          match glyph_loop req font (characters req) acc0 w1 with
          | (Error e, w2) => (Error e, w2)
          | (Ok a, w2) =>
              match export_sheet req (sheet_name req) a w2 with
              | (Error e, w3) => (Error e, w3)
              | (Ok _, w3) => (Ok tt, print_lines ["Rendering complete!"] w3)
              end
          end
      end
  end.
Proof.
  unfold render_font, name_warnings, sheet_name.
  destruct (String.eqb (export_type req) "spritesheet").
  all: try destruct (validate_spritesheet_name (spritesheet_name req)) as [n ps].
  all: cbv beta iota delta [bind print lift]; cbn [fst snd].
  all: destruct (truetype (font_path req) (font_size req)) as [font|e]; [|reflexivity].
  all: destruct (makedirs _ _) as [[[]|e] w1]; [|reflexivity].
  all: destruct (glyph_loop _ _ _ _ _) as [[a|e] w2]; [|reflexivity].
  all: destruct (export_sheet _ _ _ _) as [[[]|e] w3]; reflexivity.
Qed.

Lemma makedirs_stdout (p : string) (w : world) : stdout (snd (makedirs p w)) = stdout w.
Proof.
  unfold makedirs. destruct (String.eqb p EmptyString); [reflexivity|].
  destruct (fs w !! p) as [[|]|]; reflexivity.
Qed.

Lemma makedirs_error_fs (p : string) (w : world) (e : exn) :
  fst (makedirs p w) = Error e -> snd (makedirs p w) = w.
Proof.
  unfold makedirs. destruct (String.eqb p EmptyString); [reflexivity|].
  destruct (fs w !! p) as [[|]|]; simpl; congruence.
Qed.

Lemma makedirs_ok_nonempty (p : string) (w : world) :
  fst (makedirs p w) = Ok tt -> p <> EmptyString.
Proof.
  unfold makedirs. intros H ->. simpl in H. discriminate.
Qed.

Lemma glyph_loop_stdout (req : request) (font : Font) (chars : string) (a : acc) (w : world) :
  stdout (snd (glyph_loop req font chars a w)) = stdout w.
Proof.
  revert a w. induction chars as [|c rest IH]; intros a w; [reflexivity|].
  cbn [glyph_loop]. destruct (glyph_canvas req font c) as [img|e]; [|reflexivity].
  destruct (String.eqb (export_type req) "separate"); rewrite IH; reflexivity.
Qed.

Lemma glyph_loop_world (req : request) (font : Font) (chars : string) (a : acc) (w : world) :
  String.eqb (export_type req) "separate" = false ->
  snd (glyph_loop req font chars a w) = w.
Proof.
  intros Hs. revert a w. induction chars as [|c rest IH]; intros a w; [reflexivity|].
  cbn [glyph_loop]. destruct (glyph_canvas req font c) as [img|e]; [|reflexivity].
  rewrite Hs. apply IH.
Qed.

Lemma glyph_loop_sep_frame (req : request) (font : Font) (chars : string) (a : acc)
    (w : world) (p : string) :
  String.eqb (export_type req) "separate" = true ->
  (forall c, In c (list_ascii_of_string chars) -> char_path req c <> p) ->
  fs (snd (glyph_loop req font chars a w)) !! p = fs w !! p.
Proof.
  intros Hs. revert a w. induction chars as [|c rest IH]; intros a w Hp; [reflexivity|].
  cbn [glyph_loop]. destruct (glyph_canvas req font c) as [img|e]; [|reflexivity].
  rewrite Hs. rewrite IH by (intros c' Hc'; apply Hp; now right).
  unfold save. simpl. apply lookup_insert_ne. apply Hp. now left.
Qed.

Lemma export_sheet_stdout (req : request) (name : string) (a : acc) (w : world) :
  stdout (snd (export_sheet req name a w)) = stdout w.
Proof.
  unfold export_sheet. destruct (_ && _); [|reflexivity].
  unfold bind, lift. destruct (compose_sheet req a); reflexivity.
Qed.

Lemma export_sheet_frame (req : request) (name : string) (a : acc) (w : world) (p : string) :
  p <> path_join (output_folder req) name ->
  fs (snd (export_sheet req name a w)) !! p = fs w !! p.
Proof.
  intros Hp. unfold export_sheet. destruct (_ && _); [|reflexivity].
  unfold bind, lift. destruct (compose_sheet req a); [|reflexivity].
  simpl. now apply lookup_insert_ne.
Qed.

Lemma export_sheet_other (req : request) (name : string) (a : acc) (w : world) :
  String.eqb (export_type req) "spritesheet" = false ->
  export_sheet req name a w = (Ok tt, w).
Proof. intros H. unfold export_sheet. now rewrite H. Qed.

(** What the run prints: the validator's warning (sheet mode only), then
    "Rendering complete!" if and only if the run ends without an
    exception. *)
Theorem render_font_stdout (req : request) (w : world) :
  stdout (snd (render_font req w)) =
  (stdout w ++ name_warnings req ++
   match fst (render_font req w) with Ok _ => ["Rendering complete!"] | Error _ => [] end)%list.
Proof.
  rewrite render_font_unfold, makedirs_print.
  destruct (truetype (font_path req) (font_size req)) as [font|e];
    [|simpl; now rewrite app_nil_r].
  destruct (makedirs (output_folder req) w) as [r1 w1] eqn:Em. cbn [fst snd].
  assert (S1 : stdout w1 = stdout w).
  { pose proof (makedirs_stdout (output_folder req) w) as S. now rewrite Em in S. }
  destruct r1 as [[]|e]; [|simpl; rewrite S1; now rewrite app_nil_r].
  pose proof (glyph_loop_stdout req font (characters req) acc0 (print_lines (name_warnings req) w1))
    as S2.
  destruct (glyph_loop _ _ _ _ _) as [[a|e] w2]; cbn [snd] in S2;
    [|simpl in S2 |- *; rewrite S2, S1; now rewrite app_nil_r].
  pose proof (export_sheet_stdout req (sheet_name req) a w2) as S3.
  destruct (export_sheet _ _ _ _) as [[[]|e] w3]; cbn [snd] in S3; simpl in S2 |- *;
    rewrite S3, S2, S1; [now rewrite app_assoc | now rewrite app_nil_r].
Qed.

(** If the font cannot be loaded, the run raises that error after printing
    the validator's warning, and creates no directory and no file. *)
Theorem render_font_font_error (req : request) (w : world) (e : exn) :
  truetype (font_path req) (font_size req) = Error e ->
  render_font req w = (Error e, World (fs w) (stdout w ++ name_warnings req)).
Proof. intros H. rewrite render_font_unfold, H. reflexivity. Qed.

(** If the output folder is the empty path or an existing file, the run
    raises FileNotFoundError or FileExistsError and the filesystem is left
    as it was. *)
Theorem render_font_folder_error (req : request) (font : Font) (w : world) :
  truetype (font_path req) (font_size req) = Ok font ->
  (output_folder req = EmptyString \/ exists im, fs w !! output_folder req = Some (File im)) ->
  fst (render_font req w) =
    Error (if String.eqb (output_folder req) EmptyString
           then FileNotFoundError EmptyString else FileExistsError (output_folder req)) /\
  fs (snd (render_font req w)) = fs w.
Proof.
  intros Ht Hf. rewrite render_font_unfold, Ht, makedirs_print. unfold makedirs.
  destruct Hf as [-> | [im Hi]]; [split; reflexivity|].
  destruct (String.eqb (output_folder req) EmptyString) eqn:E.
  - apply String.eqb_eq in E. rewrite E. split; reflexivity.
  - rewrite Hi. split; reflexivity.
Qed.

(** In sheet mode the run writes at most one file, the sheet at
    output_folder joined with the validated name: every other path holds
    what it held once the output folder was created. *)
Theorem sheet_mode_frame (req : request) (font : Font) (w : world) (p : string) :
  export_type req = "spritesheet" ->
  truetype (font_path req) (font_size req) = Ok font ->
  p <> sheet_path req ->
  fs (snd (render_font req w)) !! p = fs (snd (makedirs (output_folder req) w)) !! p.
Proof.
  intros He Ht Hp. rewrite render_font_unfold, Ht, makedirs_print.
  destruct (makedirs (output_folder req) w) as [[[]|e] w1]; cbn [fst snd]; [|reflexivity].
  assert (Hs : String.eqb (export_type req) "separate" = false) by now rewrite He.
  pose proof (glyph_loop_world req font (characters req) acc0 (print_lines (name_warnings req) w1) Hs)
    as W.
  destruct (glyph_loop _ _ _ _ _) as [[a|e] w2]; cbn [snd] in W; subst w2; [|reflexivity].
  assert (Hn : p <> path_join (output_folder req) (sheet_name req)).
  { unfold sheet_name. now rewrite He. }
  pose proof (export_sheet_frame req (sheet_name req) a (print_lines (name_warnings req) w1) p Hn)
    as F.
  destruct (export_sheet _ _ _ _) as [[[]|e] w3]; cbn [snd] in F; exact F.
Qed.

(** In separate mode the run writes only the files of the characters:
    every path that is not output_folder joined with some "<char>.png" of
    the input holds what it held once the output folder was created. *)
Theorem separate_mode_frame (req : request) (font : Font) (w : world) (p : string) :
  export_type req = "separate" ->
  truetype (font_path req) (font_size req) = Ok font ->
  (forall c, In c (list_ascii_of_string (characters req)) -> char_path req c <> p) ->
  fs (snd (render_font req w)) !! p = fs (snd (makedirs (output_folder req) w)) !! p.
Proof.
  intros He Ht Hp. rewrite render_font_unfold, Ht, makedirs_print.
  destruct (makedirs (output_folder req) w) as [[[]|e] w1]; cbn [fst snd]; [|reflexivity].
  assert (Hs : String.eqb (export_type req) "separate" = true) by now rewrite He.
  pose proof (glyph_loop_sep_frame req font (characters req) acc0
                (print_lines (name_warnings req) w1) p Hs Hp) as F.
  destruct (glyph_loop _ _ _ _ _) as [[a|e] w2]; cbn [snd] in F; [|exact F].
  rewrite export_sheet_other by now rewrite He. exact F.
Qed.

(** With an export type other than "separate" and "spritesheet" the
    canvases are built but nothing is saved: the filesystem is what
    [os.makedirs] left. *)
Theorem other_export_writes_nothing (req : request) (font : Font) (w : world) :
  export_type req <> "separate" -> export_type req <> "spritesheet" ->
  truetype (font_path req) (font_size req) = Ok font ->
  fs (snd (render_font req w)) = fs (snd (makedirs (output_folder req) w)).
Proof.
  intros H1 H2 Ht. rewrite render_font_unfold, Ht, makedirs_print.
  destruct (makedirs (output_folder req) w) as [[[]|e] w1]; cbn [fst snd]; [|reflexivity].
  assert (Hs : String.eqb (export_type req) "separate" = false)
    by now apply String.eqb_neq.
  pose proof (glyph_loop_world req font (characters req) acc0 (print_lines (name_warnings req) w1) Hs)
    as W.
  destruct (glyph_loop _ _ _ _ _) as [[a|e] w2]; cbn [snd] in W; subst w2; [|reflexivity].
  rewrite export_sheet_other by now apply String.eqb_neq. reflexivity.
Qed.

Lemma str_app_inv_l (p s1 s2 : string) : p ++ s1 = p ++ s2 -> s1 = s2.
Proof. induction p as [|c p IH]; simpl; [auto | intros H; injection H; auto]. Qed.

Lemma str_length_app (a b : string) :
  String.length (a ++ b) = (String.length a + String.length b)%nat.
Proof. induction a as [|x a IH]; simpl; [reflexivity | now rewrite IH]. Qed.

Lemma path_join_char (a s : string) (c : ascii) :
  path_join a (String c s) =
  if Ascii.eqb c "/" then String c s
  else if String.eqb a EmptyString || endswith a "/" then a ++ String c s
  else a ++ "/" ++ String c s.
Proof. destruct c as [[] [] [] [] [] [] [] []]; reflexivity. Qed.

(** Two characters are saved at the same path only if they are equal
    (the folder being non-empty). *)
Lemma char_path_inj (req : request) (c1 c2 : ascii) :
  output_folder req <> EmptyString ->
  char_path req c1 = char_path req c2 -> c1 = c2.
Proof.
  intros Hne. unfold char_path, char_file. rewrite !path_join_char.
  set (f := output_folder req) in *.
  assert (Hlen : forall c, (6 <= String.length
            (if String.eqb f EmptyString || endswith f "/" then f ++ String c ".png"
             else f ++ "/" ++ String c ".png"))%nat).
  { intros c. destruct f as [|x f]; [congruence|].
    destruct (_ || _); simpl; rewrite ?str_length_app; simpl; lia. }
  destruct (Ascii.eqb c1 "/") eqn:E1; destruct (Ascii.eqb c2 "/") eqn:E2.
  - apply Ascii.eqb_eq in E1, E2. congruence.
  - intros H. pose proof (Hlen c2) as L. rewrite <- H in L. simpl in L. lia.
  - intros H. pose proof (Hlen c1) as L. rewrite H in L. simpl in L. lia.
  - destruct (_ || _); intros H.
    + apply str_app_inv_l in H. now injection H.
    + apply str_app_inv_l in H. now injection H.
Qed.

Lemma glyph_loop_sep_files (req : request) (font : Font) (chars : string) (a a' : acc)
    (w w' : world) :
  String.eqb (export_type req) "separate" = true ->
  glyph_loop req font chars a w = (Ok a', w') ->
  forall c, In c (list_ascii_of_string chars) ->
  exists c', In c' (list_ascii_of_string chars) /\ char_path req c' = char_path req c /\
    exists img, glyph_canvas req font c' = Ok img /\ fs w' !! char_path req c = Some (File img).
Proof.
  intros Hs. revert a w. induction chars as [|c0 rest IH]; intros a w H c Hc; [destruct Hc|].
  cbn [glyph_loop] in H. destruct (glyph_canvas req font c0) as [img0|e] eqn:E0;
    [|discriminate]. rewrite Hs in H.
  destruct (List.Exists_dec (fun c'' => char_path req c'' = char_path req c)
              (list_ascii_of_string rest) (fun c'' => string_dec _ _)) as [Ex|NEx].
  - apply List.Exists_exists in Ex as (c'' & Hin & Hp).
    destruct (IH _ _ H c'' Hin) as (c' & Hin' & Hp' & img & Hi & Hl).
    exists c'. split; [now right|]. split; [congruence|]. exists img. rewrite <- Hp. auto.
  - destruct Hc as [<- | Hc].
    + exists c0. split; [now left|]. split; [reflexivity|]. exists img0. split; [exact E0|].
      pose proof (glyph_loop_sep_frame req font rest a
                    (save (path_join (output_folder req) (char_file c0)) img0 w)
                    (char_path req c0) Hs) as F.
      rewrite H in F. cbn [snd] in F. rewrite F.
      * unfold save. simpl. apply lookup_insert_eq.
      * intros c'' Hin Heq. apply NEx, List.Exists_exists. eauto.
    + exfalso. apply NEx, List.Exists_exists. eauto.
Qed.

(** In separate mode, after a run that ends without an exception, the file
    output_folder/<c>.png of every input character c holds the canvas
    rendered for c (a later duplicate writes the same canvas again). *)
Theorem separate_mode_files (req : request) (font : Font) (w : world) (c : ascii) :
  export_type req = "separate" ->
  truetype (font_path req) (font_size req) = Ok font ->
  fst (render_font req w) = Ok tt ->
  In c (list_ascii_of_string (characters req)) ->
  exists img, glyph_canvas req font c = Ok img /\
    fs (snd (render_font req w)) !! char_path req c = Some (File img).
Proof.
  intros He Ht Hok Hc. rewrite render_font_unfold, Ht, makedirs_print in *.
  destruct (makedirs (output_folder req) w) as [[[]|e] w1] eqn:Em; cbn [fst snd] in *;
    [|discriminate].
  assert (Hne : output_folder req <> EmptyString).
  { apply (makedirs_ok_nonempty _ w). now rewrite Em. }
  assert (Hs : String.eqb (export_type req) "separate" = true) by now rewrite He.
  destruct (glyph_loop _ _ _ _ _) as [[a|e] w2] eqn:Eg; [|discriminate].
  rewrite export_sheet_other in * by now rewrite He. cbn [fst snd] in *.
  destruct (glyph_loop_sep_files req font _ _ _ _ _ Hs Eg c Hc)
    as (c' & _ & Hp & img & Hi & Hl).
  apply char_path_inj in Hp; [|exact Hne]. subst c'.
  exists img. split; [exact Hi|]. exact Hl.
Qed.

(** The character loop composes: processing [s1 ++ s2] is processing [s1]
    and then, if no exception was raised, [s2] from where [s1] left the
    accumulators and the filesystem. *)
Theorem glyph_loop_app (req : request) (font : Font) (s1 s2 : string) (a : acc) (w : world) :
  glyph_loop req font (s1 ++ s2) a w =
  match glyph_loop req font s1 a w with
  | (Ok a', w') => glyph_loop req font s2 a' w'
  | (Error e, w') => (Error e, w')
  end.
Proof.
  revert a w. induction s1 as [|c s1 IH]; intros a w; [reflexivity|].
  change (String c s1 ++ s2) with (String c (s1 ++ s2)). cbn [glyph_loop].
  destruct (glyph_canvas req font c); [|reflexivity].
  destruct (String.eqb (export_type req) "separate"); apply IH.
Qed.











(** Outside the drawn glyph's ink, a glyph canvas is fully transparent in
    "transparent" mode; in every other mode it is opaque and holds the
    background colour, each band clipped to 0..255. *)
Theorem glyph_canvas_background (req : request) (font : Font) (c : ascii) (img : image)
    (u v : Z) :
  glyph_canvas req font c = Ok img ->
  glyph_ink font c (u - pad_left req) (v - pad_top req) = false ->
  pixels img u v =
    if String.eqb (bg_type req) "transparent" then Px 0 0 0 0
    else let '(r, g, b) := bg_color req in Px (clip8 r) (clip8 g) (clip8 b) 255.
Proof.
  unfold glyph_canvas, char_dims.
  destruct (getbbox font c) as [[[l t] r] b]. unfold Image_new.
  destruct (String.eqb (bg_type req) "transparent");
  match goal with |- context [if ?cond then _ else _] => destruct cond end;
    intros H; try discriminate; injection H as <-; intros Hi; simpl;
    rewrite draw_text_outside_ink by exact Hi; [reflexivity|].
  now destruct (bg_color req) as [[r' g'] b'].
Qed.


End Renderer.

(* ------------------------------------------------------------------ *)
(** ** Pasting with an alpha mask *)

Lemma DIV255_mul255 (a : Z) : 0 <= a <= 255 -> DIV255 (a * 255) = a.
Proof.
  intros Ha. unfold DIV255. cbv zeta. rewrite !Z.shiftr_div_pow2 by lia.
  change (2 ^ 8) with 256. Z.div_mod_to_equations. lia.
Qed.

Lemma BLEND_0 (a b : Z) : 0 <= a <= 255 -> BLEND 0 a b = a.
Proof. intros Ha. unfold BLEND. rewrite Z.mul_0_r, Z.add_0_r. now apply DIV255_mul255. Qed.

Lemma BLEND_255 (a b : Z) : 0 <= b <= 255 -> BLEND 255 a b = b.
Proof. intros Hb. unfold BLEND. rewrite Z.sub_diag, Z.mul_0_r, Z.add_0_l. now apply DIV255_mul255. Qed.

(** Pasting an RGBA canvas with itself as mask onto an RGBA sheet (line
    77): where the canvas pixel has alpha 0 the sheet pixel is kept, and
    where it has alpha 255 (inside both images) the canvas pixel replaces
    it, for 8-bit pixels. *)
Theorem paste_alpha_mask (sheet img r : image) (bx by_ x y : Z) :
  im_mode sheet = RGBA -> im_mode img = RGBA ->
  paste sheet img (bx, by_) img = Ok r ->
  (alpha (pixels img (x - bx) (y - by_)) = 0 -> pixel_8bit (pixels sheet x y) ->
   pixels r x y = pixels sheet x y) /\
  (alpha (pixels img (x - bx) (y - by_)) = 255 -> pixel_8bit (pixels img (x - bx) (y - by_)) ->
   0 <= x < width sheet -> 0 <= y < height sheet ->
   bx <= x < bx + width img -> by_ <= y < by_ + height img ->
   pixels r x y = pixels img (x - bx) (y - by_)).
Proof.
  intros Hs Hi. unfold paste. rewrite Hs, Hi. cbn [mode_eqb]. cbv zeta.
  destruct ((Z.min (bx + width img) (width sheet) <=? Z.max bx 0) ||
            (Z.min (by_ + height img) (height sheet) <=? Z.max by_ 0)) eqn:Er.
  - intros H. injection H as <-. split; [auto|].
    intros _ _ X1 Y1 X2 Y2. apply orb_true_iff in Er as [Er|Er]; apply Z.leb_le in Er; lia.
  - intros H. injection H as <-. simpl. split.
    + intros Ha P. destruct ((_ <=? x) && _ && _ && _); [|reflexivity].
      rewrite Ha. destruct (pixels sheet x y) as [pr pg pb pa]. unfold pixel_8bit in P.
      simpl in P. unfold blend_pixel. simpl. rewrite !BLEND_0 by lia. reflexivity.
    + intros Ha P X1 Y1 X2 Y2.
      replace ((Z.max bx 0 <=? x) && (x <? Z.min (bx + width img) (width sheet)) &&
               (Z.max by_ 0 <=? y) && (y <? Z.min (by_ + height img) (height sheet))) with true
        by (symmetry; repeat rewrite andb_true_iff; rewrite Z.leb_le, Z.ltb_lt, Z.leb_le, Z.ltb_lt;
            lia).
      rewrite Ha. destruct (pixels img (x - bx) (y - by_)) as [pr pg pb pa]. unfold pixel_8bit in P.
      simpl in P. unfold blend_pixel. simpl. rewrite !BLEND_255 by lia. reflexivity.
Qed.

(* ================================================================== *)
(** * Runs on concrete inputs *)

Lemma fake_draw_text_outside_ink :
  forall font img x0 y0 c col x y,
    FakeFont.ink font c (x - x0) (y - y0) = false ->
    FakeFont.draw_text font img (x0, y0) c col x y = pixels img x y.
Proof.
  intros font img x0 y0 c [[r g] b] x y H. unfold FakeFont.draw_text. now rewrite H.
Qed.

Lemma sheet_dimensions_witness :
  exists a w',
    glyph_loop unit FakeFont.getbbox FakeFont.draw_text FakeFont.req_sheet tt "AB" acc0
      FakeFont.w0 = (Ok a, w') /\
    exists sheet, new_sheet FakeFont.req_sheet a = Ok sheet /\
      width sheet = 58 /\ height sheet = 32.
Proof.
  eexists. eexists. split; [reflexivity|].
  destruct (sheet_dimensions unit FakeFont.getbbox FakeFont.draw_text FakeFont.req_sheet tt
              "A" "B" _ FakeFont.w0 _ eq_refl eq_refl) as (sheet & Hs & Hw & _ & (c' & _ & Hh) & _).
  exists sheet. split; [exact Hs|]. rewrite Hw. split; [reflexivity|].
  rewrite <- Hh. reflexivity.
Defined.

Lemma sheet_layout_order_witness :
  exists a w',
    glyph_loop unit FakeFont.getbbox FakeFont.draw_text FakeFont.req_sheet tt "AB" acc0
      FakeFont.w0 = (Ok a, w') /\
    canvases unit FakeFont.getbbox FakeFont.draw_text FakeFont.req_sheet tt "AB" = Ok (images a) /\
    compose_sheet FakeFont.req_sheet a =
      (match new_sheet FakeFont.req_sheet a with
       | Error e => Error e
       | Ok sheet => paste_each sheet (placements (images a))
       end).
Proof.
  eexists. eexists. split; [reflexivity|].
  exact (sheet_layout_order unit FakeFont.getbbox FakeFont.draw_text FakeFont.req_sheet tt "AB"
           _ FakeFont.w0 _ eq_refl eq_refl).
Defined.

Lemma sheet_background_witness :
  exists a w',
    glyph_loop unit FakeFont.getbbox FakeFont.draw_text FakeFont.req_sheet tt "AB" acc0
      FakeFont.w0 = (Ok a, w') /\
    exists sheet,
      new_sheet FakeFont.req_sheet a = Ok sheet /\ im_mode sheet = RGBA /\
      (forall x y, pixels sheet x y = Px 0 0 0 0) /\
      (forall composed, compose_sheet FakeFont.req_sheet a = Ok composed ->
       forall x y, outside_ink unit FakeFont.getbbox FakeFont.ink FakeFont.req_sheet tt "AB" x y ->
       pixels composed x y = Px 0 0 0 0).
Proof.
  eexists. eexists. split; [reflexivity|].
  destruct (sheet_background unit FakeFont.getbbox FakeFont.draw_text FakeFont.ink
              fake_draw_text_outside_ink FakeFont.req_sheet tt "AB" _ FakeFont.w0 _ eq_refl
              ltac:(unfold valid_rgb; simpl; lia) eq_refl)
    as (sheet & Hs & Hm & Hp & Hc).
  exists sheet. split; [exact Hs|]. split; [exact Hm|]. split.
  - exact Hp.
  - exact (Hc eq_refl).
Defined.

Lemma empty_sheet_writes_nothing_witness :
  fst (render_font unit FakeFont.truetype FakeFont.getbbox FakeFont.draw_text
         FakeFont.req_empty FakeFont.w0) = Ok tt /\
  fs (snd (render_font unit FakeFont.truetype FakeFont.getbbox FakeFont.draw_text
             FakeFont.req_empty FakeFont.w0)) =
  fs (snd (makedirs "out" FakeFont.w0)).
Proof.
  apply (empty_sheet_writes_nothing unit FakeFont.truetype FakeFont.getbbox FakeFont.draw_text
           FakeFont.req_empty tt FakeFont.w0); reflexivity.
Defined.

Lemma transparent_ignores_bg_color_witness :
  render_font unit FakeFont.truetype FakeFont.getbbox FakeFont.draw_text
    (with_bg_color FakeFont.req_sheet (1, 2, 3)) FakeFont.w0 =
  render_font unit FakeFont.truetype FakeFont.getbbox FakeFont.draw_text
    (with_bg_color FakeFont.req_sheet (200, 0, 0)) FakeFont.w0.
Proof.
  apply (transparent_ignores_bg_color unit FakeFont.truetype FakeFont.getbbox FakeFont.draw_text
           FakeFont.req_sheet (1, 2, 3) (200, 0, 0) FakeFont.w0).
  reflexivity.
Defined.


(** C3 fails as stated: a glyph with an empty bounding box and no padding
    gets a canvas of width (and height) 0. *)
Lemma glyph_canvas_zero_width :
  exists img,
    glyph_canvas unit FakeFont.getbbox_empty FakeFont.draw_text (FakeFont.req_unpadded "A") tt "A"
      = Ok img /\ width img = 0 /\ height img = 0.
Proof.
  eexists. split; [reflexivity|]. split; reflexivity.
Defined.

(** C5: with a filled background the glyph canvas is RGB, and pasting it
    with itself as the mask raises ValueError: the run stops before the
    sheet is saved. *)
Theorem filled_sheet_paste_fails :
  fst (render_font unit FakeFont.truetype FakeFont.getbbox FakeFont.draw_text
         FakeFont.req_filled FakeFont.w0) = Error (ValueError "bad transparency mask") /\
  fs (snd (render_font unit FakeFont.truetype FakeFont.getbbox FakeFont.draw_text
             FakeFont.req_filled FakeFont.w0)) !! "out/sheet.png" = None.
Proof. vm_compute. split; reflexivity. Qed.


Lemma render_font_font_error_witness :
  render_font unit FakeFont.truetype_missing FakeFont.getbbox FakeFont.draw_text
    FakeFont.req_sheet FakeFont.w0 =
  (Error (OSError "cannot open resource"),
   World (fs FakeFont.w0) (stdout FakeFont.w0 ++ name_warnings FakeFont.req_sheet)).
Proof.
  apply (render_font_font_error unit FakeFont.truetype_missing FakeFont.getbbox
           FakeFont.draw_text FakeFont.req_sheet FakeFont.w0 (OSError "cannot open resource")).
  reflexivity.
Defined.

Lemma render_font_folder_error_witness :
  fst (render_font unit FakeFont.truetype FakeFont.getbbox FakeFont.draw_text
         FakeFont.req_sheet FakeFont.w_file) =
    Error (if String.eqb (output_folder FakeFont.req_sheet) EmptyString
           then FileNotFoundError EmptyString
           else FileExistsError (output_folder FakeFont.req_sheet)) /\
  fs (snd (render_font unit FakeFont.truetype FakeFont.getbbox FakeFont.draw_text
             FakeFont.req_sheet FakeFont.w_file)) = fs FakeFont.w_file.
Proof.
  apply (render_font_folder_error unit FakeFont.truetype FakeFont.getbbox FakeFont.draw_text
           FakeFont.req_sheet tt FakeFont.w_file).
  - reflexivity.
  - right. eexists. vm_compute. reflexivity.
Defined.

Lemma sheet_mode_frame_witness :
  fs (snd (render_font unit FakeFont.truetype FakeFont.getbbox FakeFont.draw_text
             FakeFont.req_sheet FakeFont.w0)) !! "out/A.png" =
  fs (snd (makedirs (output_folder FakeFont.req_sheet) FakeFont.w0)) !! "out/A.png".
Proof.
  apply (sheet_mode_frame unit FakeFont.truetype FakeFont.getbbox FakeFont.draw_text
           FakeFont.req_sheet tt FakeFont.w0 "out/A.png").
  - reflexivity.
  - reflexivity.
  - intros H. vm_compute in H. discriminate H.
Defined.

Lemma separate_mode_frame_witness :
  fs (snd (render_font unit FakeFont.truetype FakeFont.getbbox FakeFont.draw_text
             FakeFont.req_sep FakeFont.w0)) !! "out/sheet.png" =
  fs (snd (makedirs (output_folder FakeFont.req_sep) FakeFont.w0)) !! "out/sheet.png".
Proof.
  apply (separate_mode_frame unit FakeFont.truetype FakeFont.getbbox FakeFont.draw_text
           FakeFont.req_sep tt FakeFont.w0 "out/sheet.png").
  - reflexivity.
  - reflexivity.
  - intros c Hc H. destruct Hc as [<- | [<- | []]]; vm_compute in H; discriminate H.
Defined.

Lemma separate_mode_files_witness :
  exists img,
    glyph_canvas unit FakeFont.getbbox FakeFont.draw_text FakeFont.req_sep tt "A" = Ok img /\
    fs (snd (render_font unit FakeFont.truetype FakeFont.getbbox FakeFont.draw_text
               FakeFont.req_sep FakeFont.w0)) !! char_path FakeFont.req_sep "A" = Some (File img).
Proof.
  apply (separate_mode_files unit FakeFont.truetype FakeFont.getbbox FakeFont.draw_text
           FakeFont.req_sep tt FakeFont.w0 "A").
  - reflexivity.
  - reflexivity.
  - vm_compute. reflexivity.
  - simpl. now left.
Defined.


Lemma other_export_writes_nothing_witness :
  fs (snd (render_font unit FakeFont.truetype FakeFont.getbbox FakeFont.draw_text
             FakeFont.req_grid FakeFont.w0)) =
  fs (snd (makedirs (output_folder FakeFont.req_grid) FakeFont.w0)).
Proof.
  apply (other_export_writes_nothing unit FakeFont.truetype FakeFont.getbbox FakeFont.draw_text
           FakeFont.req_grid tt FakeFont.w0).
  - intros H. vm_compute in H. discriminate H.
  - intros H. vm_compute in H. discriminate H.
  - reflexivity.
Defined.


Lemma glyph_canvas_background_witness :
  exists img,
    glyph_canvas unit FakeFont.getbbox FakeFont.draw_text FakeFont.req_clip tt "A" = Ok img /\
    pixels img 0 0 = Px 255 0 7 255.
Proof.
  eexists. split; [reflexivity|].
  rewrite (glyph_canvas_background unit FakeFont.getbbox FakeFont.draw_text FakeFont.ink
             fake_draw_text_outside_ink FakeFont.req_clip tt "A" _ 0 0 eq_refl eq_refl).
  reflexivity.
Defined.

Lemma paste_alpha_mask_witness :
  exists r,
    paste FakeFont.sheet_4x1 FakeFont.glyph_2x1 (1, 0) FakeFont.glyph_2x1 = Ok r /\
    pixels r 1 0 = Px 10 20 30 40 /\ pixels r 2 0 = Px 5 6 7 255.
Proof.
  eexists. split; [reflexivity|].
  destruct (paste_alpha_mask FakeFont.sheet_4x1 FakeFont.glyph_2x1 _ 1 0 1 0
              eq_refl eq_refl eq_refl) as [H0 _].
  destruct (paste_alpha_mask FakeFont.sheet_4x1 FakeFont.glyph_2x1 _ 1 0 2 0
              eq_refl eq_refl eq_refl) as [_ H1].
  split.
  - apply H0; [reflexivity | unfold pixel_8bit; simpl; lia].
  - apply H1; [reflexivity | unfold pixel_8bit; simpl; lia | simpl; lia ..].
Defined.
